(** * Upload progress tracking of [app.py]

    A shallow embedding of the upload-progress layer of [app.py]: the byte
    formatter [human_readable_filesize], the file wrapper
    [CustomTemporaryFile] and the request class [CustomRequest] with its
    per-file progress dictionary.

    Python integers are unbounded, so they are [Z].  A raised exception is a
    value of [exn]; a method that mutates [self] returns the state it leaves
    behind together with its outcome, because Python keeps every mutation
    made before a [raise]. *)

From Stdlib Require Import ZArith Lia List Ascii DecimalString.
From Stdlib.Strings Require Import Byte.
From stdpp Require Import gmap strings.

Local Open Scope Z_scope.

(** ** Exceptions and results *)

Inductive exn : Type :=
  | KeyError (key : string)
  | AttributeError (attr : string)
  | IndexError
  | OverflowError
  | ValueError (msg : string)
  | OSError (msg : string).

Inductive result (A : Type) : Type :=
  | Ok (a : A)
  | Raise (e : exn).

Arguments Ok {A} a.
Arguments Raise {A} e.

Definition bind {A B} (r : result A) (k : A -> result B) : result B :=
  match r with
  | Ok a => k a
  | Raise e => Raise e
  end.

Notation "'let/r' x := r 'in' k" := (bind r (fun x => k))
  (at level 10, x name, r at level 100, k at level 200, only parsing).

Definition is_ok {A} (r : result A) : bool :=
  match r with Ok _ => true | Raise _ => false end.

(** ** Floats of the formatter

    [human_readable_filesize] receives an [int] and works on it in binary64.
    The only float operations are the conversion [float(b)] and divisions by
    [1024.0].  The conversion rounds to 53 significant bits, ties to even,
    and raises [OverflowError] when the rounded value needs an exponent
    beyond the format.  A division by [1024.0] only lowers the exponent, and
    every quotient formed here is at least [1], so it is exact.  Hence every
    float met here is an integer over a power of 1024. *)

Record pyfloat : Type := PyFloat { fnum : Z; fdiv : nat }.

(** [round_to_53 n], for [0 <= n]: the nearest integer with at most 53
    significant bits, ties to the even mantissa. *)
Definition round_to_53 (n : Z) : Z :=
  if n <? 2 ^ 53 then n
  else
    let e := Z.log2 n - 52 in
    let q := Z.shiftr n e in
    let r := n - Z.shiftl q e in
    let half := Z.shiftl 1 (e - 1) in
    let q' := if (half <? r) || ((r =? half) && Z.odd q) then q + 1 else q in
    Z.shiftl q' e.

(** [float(b)] for an [int] [b]. *)
Definition float_of_int (b : Z) : result pyfloat :=
  let m := round_to_53 (Z.abs b) in
  if 2 ^ 1024 <=? m then Raise OverflowError
  else Ok (PyFloat (Z.sgn b * m) 0).

(** [thresh = 1024.0]; [x / thresh] and [x >= thresh]. *)
Definition float_div_thresh (x : pyfloat) : pyfloat :=
  PyFloat (fnum x) (S (fdiv x)).

Definition float_ge_thresh (x : pyfloat) : bool :=
  1024 * 1024 ^ Z.of_nat (fdiv x) <=? fnum x.

(** ** ['{:.1f}'.format]

    The format prints the exact binary value rounded to one decimal, ties to
    even.  [tenths x] is that rounded value counted in tenths. *)

Definition round_half_even (n d : Z) : Z :=
  let q := n / d in
  let r := n mod d in
  if 2 * r <? d then q
  else if d <? 2 * r then q + 1
  else if Z.even q then q else q + 1.

Definition tenths (x : pyfloat) : Z :=
  round_half_even (10 * Z.abs (fnum x)) (1024 ^ Z.of_nat (fdiv x)).

Definition dec (n : Z) : string :=
  NilZero.string_of_uint (N.to_uint (Z.to_N n)).

Definition format_1f (x : pyfloat) : string :=
  (if fnum x <? 0 then "-" else "")
  +:+ dec (tenths x / 10) +:+ "." +:+ dec (tenths x mod 10).

(** ** [human_readable_filesize] *)

Definition units : list string :=
  ["KiB"; "MiB"; "GiB"; "TiB"; "PiB"; "EiB"; "ZiB"; "YiB"].

(** The loop [while b >= thresh: b /= thresh; u += 1].  [fuel] bounds the
    number of iterations; [while_thresh_exit] below shows that the bound
    given by [human_readable_filesize] is never reached. *)
Fixpoint while_thresh (fuel : nat) (b : pyfloat) (u : nat) : pyfloat * nat :=
  match fuel with
  | O => (b, u)
  | S fuel' =>
      if float_ge_thresh b
      then while_thresh fuel' (float_div_thresh b) (S u)
      else (b, u)
  end.

Definition human_readable_filesize (b : Z) : result string :=
  if b <? 1024 then
    let/r x := float_of_int b in
    Ok (format_1f x +:+ " B")
  else
    let/r x := float_of_int b in
    let '(b', u) :=
      while_thresh (Z.to_nat (Z.log2 (fnum x))) (float_div_thresh x) 0 in
    match units !! u with
    | Some unit_name => Ok (format_1f b' +:+ " " +:+ unit_name)
    | None => Raise IndexError
    end.

(** ** The progress dictionary and the request

    [self.progress] maps a filename to a two-key dictionary.  The attributes
    [progress], [content_length] and [previous_file] are set by [__init__]
    only under [if self.upload_request:], so a request of another method has
    none of them: [upload self = None], and reading one of them raises
    [AttributeError]. *)

Record progress_entry : Type :=
  ProgressEntry { uploaded_bytes : Z; complete : bool }.

Record upload_attrs : Type := UploadAttrs {
  progress : gmap string progress_entry;
  content_length : Z;
  previous_file : option string
}.

Record CustomRequest : Type := Request {
  closed : bool;
  upload_request : bool;
  upload : option upload_attrs
}.

Definition set_closed (self : CustomRequest) (c : bool) : CustomRequest :=
  Request c (upload_request self) (upload self).

Definition set_upload (self : CustomRequest) (a : upload_attrs) : CustomRequest :=
  Request (closed self) (upload_request self) (Some a).

Definition set_progress (a : upload_attrs) (p : gmap string progress_entry)
  : upload_attrs :=
  UploadAttrs p (content_length a) (previous_file a).

Definition set_previous_file (a : upload_attrs) (f : option string)
  : upload_attrs :=
  UploadAttrs (progress a) (content_length a) f.

Definition set_content_length (a : upload_attrs) (n : Z) : upload_attrs :=
  UploadAttrs (progress a) n (previous_file a).

(** The entry of [filename], when the request has a dictionary holding it. *)
Definition entry (self : CustomRequest) (filename : string)
  : option progress_entry :=
  match upload self with
  | Some a => progress a !! filename
  | None => None
  end.

(** *** [CustomRequest.__init__]

    [hdr] is the value of the [Content-Length] header, [None] when the
    lookup [self.headers['Content-Length']] raises [KeyError].  [int] is
    Python's [int()] on a string, [None] when it raises [ValueError].  The
    bare [except:] catches both.  The call of [human_readable_filesize]
    inside [print] is kept: when it raises, [__init__] raises. *)
Section Init.

Variable int : string -> option Z.

Definition parse_content_length (hdr : option string) : Z :=
  match hdr with
  | Some s => match int s with Some n => n | None => 0 end
  | None => 0
  end.

Definition __init__ (method : string) (hdr : option string)
  : result CustomRequest :=
  if String.eqb method "POST" then
    let n := parse_content_length hdr in
    let/r _ := human_readable_filesize n in
    Ok (Request false true (Some (UploadAttrs ∅ n None)))
  else Ok (Request false false None).

End Init.

(** *** [CustomRequest.file_write_func] *)
Definition file_write_func (self : CustomRequest) (filename : string)
  (length : Z) : CustomRequest * result unit :=
  if closed self then (self, Ok tt)
  else if upload_request self then
    match upload self with
    | None => (self, Raise (AttributeError "progress"))
    | Some a =>
        match progress a !! filename with
        | None => (self, Raise (KeyError filename))
        | Some e =>
            let total := uploaded_bytes e + length in
            let a1 :=
              set_progress a
                (<[filename := ProgressEntry total (complete e)]> (progress a)) in
            let a2 :=
              if decide (previous_file a1 = Some filename) then a1
              else set_previous_file a1 (Some filename) in
            (set_upload self a2,
             let/r _ := human_readable_filesize total in Ok tt)
        end
    end
  else (self, Ok tt).

(** *** [CustomRequest.file_close_func] *)
Definition file_close_func (self : CustomRequest) (filename : string)
  : CustomRequest * result unit :=
  match upload self with
  | None => (self, Raise (AttributeError "progress"))
  | Some a =>
      match progress a !! filename with
      | None => (self, Raise (KeyError filename))
      | Some e =>
          (set_upload self
             (set_progress a
                (<[filename := ProgressEntry (uploaded_bytes e) true]>
                   (progress a))),
           Ok tt)
      end
  end.

(** ** [CustomTemporaryFile]

    The wrapped [tempfile.TemporaryFile] is any file-like object: [write]
    returns the number of bytes it took or raises, [close] returns or
    raises.  The two callbacks are stored in the wrapper, as the source
    does; [R] is the state of the object they are bound to. *)

Class FileLike (F : Type) : Type := {
  file_write : F -> list byte -> F * result Z;
  file_close : F -> F * result unit
}.

Record CustomTemporaryFile (F R : Type) : Type := TemporaryFileWrapper {
  onionshare_filename : string;
  onionshare_write_func : R -> string -> Z -> R * result unit;
  onionshare_close_func : R -> string -> R * result unit;
  f : F
}.

Arguments TemporaryFileWrapper {F R} _ _ _ _.
Arguments onionshare_filename {F R} _.
Arguments onionshare_write_func {F R} _.
Arguments onionshare_close_func {F R} _.
Arguments f {F R} _.

Section Wrapper.

Context {F R : Type} `{FileLike F}.

Definition set_f (self : CustomTemporaryFile F R) (f' : F)
  : CustomTemporaryFile F R :=
  TemporaryFileWrapper (onionshare_filename self)
    (onionshare_write_func self) (onionshare_close_func self) f'.

(** [CustomTemporaryFile.write] *)
Definition CustomTemporaryFile_write (self : CustomTemporaryFile F R) (b : list byte) (r : R)
  : CustomTemporaryFile F R * R * result unit :=
  match file_write (f self) b with
  | (f', Raise e) => (set_f self f', r, Raise e)
  | (f', Ok bytes_written) =>
      let '(r', o) :=
        onionshare_write_func self r (onionshare_filename self)
          bytes_written in
      (set_f self f', r', o)
  end.

(** [CustomTemporaryFile.close] *)
Definition CustomTemporaryFile_close (self : CustomTemporaryFile F R) (r : R)
  : CustomTemporaryFile F R * R * result unit :=
  match file_close (f self) with
  | (f', Raise e) => (set_f self f', r, Raise e)
  | (f', Ok _) =>
      let '(r', o) :=
        onionshare_close_func self r (onionshare_filename self) in
      (set_f self f', r', o)
  end.

End Wrapper.

(** *** [CustomRequest._get_file_stream]

    [tmp] is the fresh temporary file that the wrapper's constructor opens. *)
Definition _get_file_stream {F : Type} (self : CustomRequest)
  (filename : string) (tmp : F)
  : CustomRequest * result (CustomTemporaryFile F CustomRequest) :=
  let stream :=
    TemporaryFileWrapper filename file_write_func file_close_func tmp in
  if upload_request self then
    match upload self with
    | None => (self, Raise (AttributeError "progress"))
    | Some a =>
        (set_upload self
           (set_progress a (<[filename := ProgressEntry 0 false]> (progress a))),
         Ok stream)
    end
  else (self, Ok stream).

(** *** [CustomRequest.close]

    [super_close] is the inherited [Request.close], which the method calls
    before it looks at [self.closed]. *)
Section Close.

Variable super_close : CustomRequest -> CustomRequest * result unit.

Definition close (self : CustomRequest) : CustomRequest * result unit :=
  match super_close self with
  | (self1, Raise e) => (self1, Raise e)
  | (self1, Ok _) =>
      if closed self1 then (self1, Ok tt)
      else (set_closed self1 true, Ok tt)
  end.

End Close.

(** ** Events of one request

    What a request's tracker sees while the body is parsed: a stream is
    created for a file part, a wrapper reports a write, a wrapper reports
    its close.  [exec] keeps going after a raise, so its statements cover
    every state the dictionary can be observed in. *)

Inductive event : Type :=
  | EvStream (filename : string)
  | EvWrite (filename : string) (length : Z)
  | EvClose (filename : string).

Definition step (self : CustomRequest) (ev : event)
  : CustomRequest * result unit :=
  match ev with
  | EvStream filename =>
      let '(self', r) := _get_file_stream self filename tt in
      (self', let/r _ := r in Ok tt)
  | EvWrite filename length => file_write_func self filename length
  | EvClose filename => file_close_func self filename
  end.

Definition exec (self : CustomRequest) (evs : list event) : CustomRequest :=
  fold_left (fun s ev => fst (step s ev)) evs self.

Fixpoint outcomes (self : CustomRequest) (evs : list event)
  : list (result unit) :=
  match evs with
  | [] => []
  | ev :: evs' => snd (step self ev) :: outcomes (fst (step self ev)) evs'
  end.

Fixpoint sum_list (ds : list Z) : Z :=
  match ds with
  | [] => 0
  | d :: ds' => d + sum_list ds'
  end.

(** The request with another declared length; nothing else differs. *)
Definition with_content_length (n : Z) (self : CustomRequest) : CustomRequest :=
  match upload self with
  | Some a => set_upload self (set_content_length a n)
  | None => self
  end.

(** What the claims about one entry compare: the count does not go down and
    a set [complete] flag stays set. *)
Definition entry_le (e e' : progress_entry) : Prop :=
  uploaded_bytes e <= uploaded_bytes e'
  /\ (complete e = true -> complete e' = true).

Definition nonneg_write (ev : event) : Prop :=
  match ev with
  | EvWrite _ length => 0 <= length
  | _ => True
  end.

(** ** Concrete collaborators, to run the model

    A file of bounded room: [write] takes the whole buffer or raises, as a
    buffered Python file does; both operations raise on a closed file. *)
Record mem_file : Type := MemFile {
  data : list byte;
  room : nat;
  file_closed : bool
}.

Definition mem_write (m : mem_file) (b : list byte) : mem_file * result Z :=
  if file_closed m then (m, Raise (ValueError "write to closed file"))
  else if (room m <? List.length b)%nat
  then (m, Raise (OSError "No space left on device"))
  else (MemFile (data m ++ b) (room m - List.length b) false,
        Ok (Z.of_nat (List.length b))).

Definition mem_close (m : mem_file) : mem_file * result unit :=
  if file_closed m then (m, Raise (ValueError "already closed"))
  else (MemFile (data m) (room m) true, Ok tt).

#[export] Instance mem_file_like : FileLike mem_file :=
  {| file_write := mem_write; file_close := mem_close |}.

(** An inherited [close] for a request that holds one parsed file: it
    closes that file's stream and swallows what the stream raises. *)
Definition super_close_one (filename : string) (self : CustomRequest)
  : CustomRequest * result unit :=
  (fst (file_close_func self filename), Ok tt).

(** [int()] on plain decimal digits. *)
Definition digit_value (c : ascii) : option Z :=
  let n := Z.of_nat (nat_of_ascii c) in
  if (48 <=? n) && (n <=? 57) then Some (n - 48) else None.

Fixpoint digits_value (s : string) (acc : Z) : option Z :=
  match s with
  | EmptyString => Some acc
  | String c s' =>
      match digit_value c with
      | Some d => digits_value s' (10 * acc + d)
      | None => None
      end
  end.

Definition int_of_digits (s : string) : option Z :=
  match s with
  | EmptyString => None
  | _ => digits_value s 0
  end.

(** An upload request whose [close] has not run. *)
Definition open_upload (self : CustomRequest) : Prop :=
  closed self = false /\ upload_request self = true.

Ltac unfold_methods :=
  unfold step, _get_file_stream, file_write_func, file_close_func, entry,
    set_upload, set_progress, set_previous_file, set_closed in *.

Ltac reduce_fields :=
  cbn [fst snd closed upload_request upload progress content_length
       previous_file uploaded_bytes complete] in *.

Ltac crunch :=
  unfold_methods; reduce_fields;
  repeat ((case_match || case_decide); reduce_fields);
  simplify_eq; reduce_fields; simplify_eq; reduce_fields;
  rewrite ?lookup_insert_eq, ?lookup_insert_ne by congruence;
  try done.

(** ** Reading an event sequence

    What a sequence of events says about one filename: the filenames for
    which a stream was created, the delta an event adds to the filename,
    and whether an event closes it. *)
Fixpoint streamed (evs : list event) : list string :=
  match evs with
  | [] => []
  | EvStream g :: evs' => g :: streamed evs'
  | _ :: evs' => streamed evs'
  end.

Definition written (filename : string) (ev : event) : Z :=
  match ev with
  | EvWrite g length => if decide (g = filename) then length else 0
  | _ => 0
  end.

Definition closed_by (filename : string) (ev : event) : bool :=
  match ev with
  | EvClose g => bool_decide (g = filename)
  | _ => false
  end.

(** [previous_file] names nothing or a file of the dictionary. *)
Definition previous_file_known (self : CustomRequest) : Prop :=
  match upload self with
  | Some a =>
      match previous_file a with
      | Some g => is_Some (progress a !! g)
      | None => True
      end
  | None => True
  end.

(** The outcome of an event on a request that has no dictionary. *)
Definition outcome_without_tracker (ev : event) : result unit :=
  match ev with
  | EvClose _ => Raise (AttributeError "progress")
  | _ => Ok tt
  end.

(** * Properties of the formatter *)

Lemma pow_1024 (k : Z) : 0 <= k -> 1024 ^ k = 2 ^ (10 * k).
Proof.
  intros Hk. change 1024 with (2 ^ 10). rewrite <- Z.pow_mul_r; lia.
Qed.

Lemma pow_1024_pos (k : Z) : 0 <= k -> 0 < 1024 ^ k.
Proof. intros Hk. apply Z.pow_pos_nonneg; lia. Qed.

Lemma pow_1024_succ (k : nat) :
  1024 ^ Z.of_nat (S k) = 1024 * 1024 ^ Z.of_nat k.
Proof. rewrite Nat2Z.inj_succ, Z.pow_succ_r; lia. Qed.

Lemma pow_1024_lt_inv (i j : Z) :
  0 <= i -> 0 <= j -> 1024 ^ i < 1024 ^ j -> i < j.
Proof.
  intros Hi Hj Hlt. apply (Z.pow_lt_mono_r_iff 1024); lia.
Qed.

Lemma round_to_53_small (n : Z) : n < 2 ^ 53 -> round_to_53 n = n.
Proof.
  intros Hn. unfold round_to_53.
  destruct (Z.ltb_spec n (2 ^ 53)); [reflexivity | lia].
Qed.

(** Rounding never goes below the leading power of two. *)
Lemma round_to_53_lower (n : Z) :
  2 ^ 53 <= n -> 2 ^ Z.log2 n <= round_to_53 n.
Proof.
  intros Hn. unfold round_to_53.
  destruct (Z.ltb_spec n (2 ^ 53)) as [Hlt | _]; [lia |].
  assert (Hpos : 0 < n) by lia.
  assert (Hlog : 53 <= Z.log2 n) by (apply Z.log2_le_pow2; lia).
  destruct (Z.log2_spec n Hpos) as [Hlo _].
  set (e := Z.log2 n - 52) in *.
  assert (He : 0 <= e) by lia.
  assert (H2e : 0 < 2 ^ e) by (apply Z.pow_pos_nonneg; lia).
  assert (Hsplit : 2 ^ Z.log2 n = 2 ^ 52 * 2 ^ e).
  { rewrite <- Z.pow_add_r by lia. f_equal. lia. }
  assert (Hq : 2 ^ 52 <= Z.shiftr n e).
  { rewrite Z.shiftr_div_pow2 by lia.
    apply Z.div_le_lower_bound; lia. }
  match goal with
  | |- _ <= Z.shiftl ?q' e => assert (Hq' : 2 ^ 52 <= q')
  end.
  { destruct (_ || _); lia. }
  rewrite Z.shiftl_mul_pow2 by lia. rewrite Hsplit. nia.
Qed.

Lemma round_to_53_ge (n c : Z) :
  0 <= c -> 2 ^ c <= n -> 2 ^ c <= round_to_53 n.
Proof.
  intros Hc Hn.
  destruct (Z.lt_ge_cases n (2 ^ 53)) as [Hlt | Hge].
  - rewrite round_to_53_small; lia.
  - pose proof (round_to_53_lower n Hge) as Hlow.
    assert (Hpos : 0 < n) by lia.
    assert (c <= Z.log2 n) by (apply Z.log2_le_pow2; lia).
    assert (2 ^ c <= 2 ^ Z.log2 n) by (apply Z.pow_le_mono_r; lia).
    lia.
Qed.

(** The loop leaves at the first quotient below [thresh], with [u] raised
    once per division, and before the iteration bound is used up. *)
Lemma while_thresh_exit (fuel : nat) :
  forall (F : Z) (k u : nat),
    1024 ^ Z.of_nat k <= F ->
    Z.log2 F < 10 * Z.of_nat k + Z.of_nat fuel ->
    exists j : nat,
      while_thresh fuel (PyFloat F k) u = (PyFloat F (k + j), (u + j)%nat)
      /\ 1024 ^ Z.of_nat (k + j) <= F < 1024 ^ Z.of_nat (S (k + j)).
Proof.
  induction fuel as [| fuel IH]; intros F k u Hlo Hfuel.
  - exfalso.
    pose proof (pow_1024_pos (Z.of_nat k) ltac:(lia)) as Hp.
    assert (HF : 0 < F) by lia.
    apply Z.log2_lt_pow2 in Hfuel; [| lia].
    rewrite pow_1024 in Hlo by lia.
    replace (10 * Z.of_nat k + Z.of_nat 0) with (10 * Z.of_nat k) in Hfuel
      by lia.
    lia.
  - cbn [while_thresh]. unfold float_ge_thresh. cbn [fnum fdiv].
    destruct (Z.leb_spec (1024 * 1024 ^ Z.of_nat k) F) as [Hge | Hlt].
    + destruct (IH F (S k) (S u)) as (j & Hrun & Hbounds).
      * rewrite pow_1024_succ. lia.
      * lia.
      * exists (S j). unfold float_div_thresh. cbn [fnum fdiv].
        rewrite Hrun.
        replace (k + S j)%nat with (S k + j)%nat by lia.
        replace (u + S j)%nat with (S u + j)%nat by lia.
        split; [reflexivity | exact Hbounds].
    + exists 0%nat. rewrite !Nat.add_0_r. split; [reflexivity |].
      rewrite pow_1024_succ. lia.
Qed.


Lemma append_assoc (s1 s2 s3 : string) :
  (s1 +:+ s2) +:+ s3 = s1 +:+ s2 +:+ s3.
Proof.
  induction s1 as [| c s1 IH]; [reflexivity |].
  change (String c ((s1 +:+ s2) +:+ s3) = String c (s1 +:+ s2 +:+ s3)).
  now rewrite IH.
Qed.

Lemma float_of_int_pos (b : Z) :
  0 <= b -> round_to_53 b < 2 ^ 1024 ->
  float_of_int b = Ok (PyFloat (round_to_53 b) 0).
Proof.
  intros Hb Hr. unfold float_of_int.
  rewrite Z.abs_eq by lia.
  destruct (Z.leb_spec (2 ^ 1024) (round_to_53 b)) as [Hge | _]; [lia |].
  destruct (Z.eq_dec b 0) as [-> | Hne].
  - reflexivity.
  - rewrite Z.sgn_pos by lia. now rewrite Z.mul_1_l.
Qed.

Lemma float_of_int_overflow (b : Z) :
  0 <= b -> 2 ^ 1024 <= round_to_53 b -> float_of_int b = Raise OverflowError.
Proof.
  intros Hb Hr. unfold float_of_int.
  rewrite Z.abs_eq by lia.
  destruct (Z.leb_spec (2 ^ 1024) (round_to_53 b)); [reflexivity | lia].
Qed.

(** Below [thresh] an [int] is printed as it is, with [.0]. *)
Lemma human_readable_filesize_bytes (x : Z) :
  0 <= x < 1024 -> human_readable_filesize x = Ok (dec x +:+ ".0 B").
Proof.
  intros Hx. unfold human_readable_filesize.
  destruct (Z.ltb_spec x 1024) as [_ | Hge]; [| lia].
  assert (Hsmall : round_to_53 x = x) by (apply round_to_53_small; lia).
  rewrite float_of_int_pos by (rewrite ?Hsmall; lia).
  rewrite Hsmall. unfold bind, format_1f, tenths, round_half_even.
  cbn [fnum fdiv]. rewrite Z.abs_eq by lia.
  change (1024 ^ Z.of_nat 0) with 1.
  rewrite Z.mod_1_r, Z.div_1_r.
  destruct (Z.ltb_spec x 0) as [Hneg | _]; [lia |].
  change (2 * 0 <? 1) with true. cbv iota.
  replace (10 * x / 10) with x by (rewrite Z.mul_comm, Z.div_mul; lia).
  replace ((10 * x) mod 10) with 0
    by (rewrite Z.mul_comm, Z.mod_mul; lia).
  change (dec 0) with "0"%string.
  f_equal. change ("" +:+ dec x +:+ "." +:+ "0") with (dec x +:+ ".0").
  apply append_assoc.
Qed.

(** From [thresh] on: the unit index is the number of further divisions by
    1024 that bring the float below [thresh], and it is looked up in
    [units] only after the loop. *)
Lemma human_readable_filesize_scaled (b : Z) :
  1024 <= b -> round_to_53 b < 2 ^ 1024 ->
  exists u : nat,
    1024 ^ Z.of_nat (S u) <= round_to_53 b < 1024 ^ Z.of_nat (S (S u))
    /\ snd (while_thresh (Z.to_nat (Z.log2 (round_to_53 b)))
             (PyFloat (round_to_53 b) 1) 0) = u
    /\ human_readable_filesize b =
       match units !! u with
       | Some unit_name =>
           Ok (format_1f (PyFloat (round_to_53 b) (S u)) +:+ " " +:+ unit_name)
       | None => Raise IndexError
       end.
Proof.
  intros Hb Hfin. unfold human_readable_filesize.
  destruct (Z.ltb_spec b 1024) as [Hlt | _]; [lia |].
  rewrite float_of_int_pos by lia. unfold bind. cbn [fnum].
  set (F := round_to_53 b) in *.
  assert (HF : 1024 <= F).
  { change 1024 with (2 ^ 10). apply round_to_53_ge; [lia |].
    change (2 ^ 10) with 1024. lia. }
  destruct (while_thresh_exit (Z.to_nat (Z.log2 F)) F 1 0) as (j & Hrun & Hbnd).
  - change (1024 ^ Z.of_nat 1) with 1024. lia.
  - pose proof (Z.log2_nonneg F). lia.
  - exists j. unfold float_div_thresh. cbn [fnum fdiv].
    rewrite Hrun. cbn [Nat.add snd] in *.
    split; [exact Hbnd |]. split; reflexivity.
Qed.

Lemma round_half_even_bounds (n d : Z) :
  0 < d -> n / d <= round_half_even n d <= n / d + 1.
Proof.
  intros Hd. unfold round_half_even.
  destruct (_ <? _); [lia |]. destruct (_ <? _); [lia |].
  destruct (Z.even _); lia.
Qed.

Lemma tenths_scaled_bounds (F : Z) (k : nat) :
  1024 ^ Z.of_nat k <= F < 1024 ^ Z.of_nat (S k) ->
  10 <= tenths (PyFloat F k) <= 10240.
Proof.
  intros [Hlo Hhi]. unfold tenths. cbn [fnum fdiv].
  rewrite pow_1024_succ in Hhi.
  pose proof (pow_1024_pos (Z.of_nat k) ltac:(lia)) as Hd.
  set (d := 1024 ^ Z.of_nat k) in *.
  rewrite Z.abs_eq by lia.
  pose proof (round_half_even_bounds (10 * F) d Hd) as [Hr1 Hr2].
  assert (10 <= 10 * F / d) by (apply Z.div_le_lower_bound; lia).
  assert (10 * F / d < 10240) by (apply Z.div_lt_upper_bound; lia).
  lia.
Qed.

(** An index reached from [1024^9] on is outside [units]. *)
Lemma unit_index_large (b : Z) (u : nat) :
  1024 ^ 9 <= round_to_53 b < 1024 ^ Z.of_nat (S (S u)) ->
  (8 <= u)%nat /\ units !! u = None.
Proof.
  intros [Hlo Hhi].
  assert (Hu : (8 <= u)%nat).
  { assert (9 < Z.of_nat (S (S u))) by (apply pow_1024_lt_inv; lia). lia. }
  split; [exact Hu |]. apply lookup_ge_None_2. exact Hu.
Qed.

(** C9 (as amended).  Integers [0 <= x < 1024] are rendered as ["<x>.0 B"];
    512, 1024, 1048576 and 1572864 are rendered as ["512.0 B"], ["1.0 KiB"],
    ["1.0 MiB"] and ["1.5 MiB"]; and every [b >= 1024] whose float is below
    [1024^9] is divided by 1024 once per unit step up to the first unit of
    KiB .. YiB at which the quotient, before it is rounded to one decimal,
    is below 1024.  The rendered one-decimal value lies between 1.0 and
    1024.0, both included. *)
Theorem human_readable_filesize_renders :
  (forall x : Z,
      0 <= x < 1024 -> human_readable_filesize x = Ok (dec x +:+ ".0 B"))
  /\ human_readable_filesize 512 = Ok "512.0 B"
  /\ human_readable_filesize 1024 = Ok "1.0 KiB"
  /\ human_readable_filesize 1048576 = Ok "1.0 MiB"
  /\ human_readable_filesize 1572864 = Ok "1.5 MiB"
  /\ (forall b : Z,
        1024 <= b -> round_to_53 b < 1024 ^ 9 ->
        exists (u : nat) (unit_name : string),
          units !! u = Some unit_name
          /\ 1024 ^ Z.of_nat (S u) <= round_to_53 b < 1024 ^ Z.of_nat (S (S u))
          /\ human_readable_filesize b =
             Ok (format_1f (PyFloat (round_to_53 b) (S u))
                 +:+ " " +:+ unit_name)
          /\ 10 <= tenths (PyFloat (round_to_53 b) (S u)) <= 10240).
Proof.
  split; [exact human_readable_filesize_bytes |].
  repeat (split; [vm_compute; reflexivity |]).
  intros b Hb Hsmall.
  assert (Hfin : round_to_53 b < 2 ^ 1024).
  { assert (1024 ^ 9 < 2 ^ 1024) by (vm_compute; reflexivity). lia. }
  destruct (human_readable_filesize_scaled b Hb Hfin) as (u & Hbnd & _ & Hres).
  assert (Hu : (u < 8)%nat).
  { assert (Z.of_nat (S u) < 9) by (apply pow_1024_lt_inv; lia). lia. }
  destruct (lookup_lt_is_Some_2 units u) as [unit_name Hname]; [exact Hu |].
  exists u, unit_name. rewrite Hname in Hres.
  repeat split; try assumption; try lia;
    apply (tenths_scaled_bounds _ _ Hbnd).
Qed.

Lemma human_readable_filesize_renders_witness :
  exists (u : nat) (unit_name : string),
    units !! u = Some unit_name
    /\ human_readable_filesize 1572864 =
       Ok (format_1f (PyFloat (round_to_53 1572864) (S u)) +:+ " " +:+ unit_name).
Proof.
  destruct human_readable_filesize_renders as (_ & _ & _ & _ & _ & Hgen).
  destruct (Hgen 1572864) as (u & unit_name & Hname & _ & Hres & _).
  - lia.
  - vm_compute. reflexivity.
  - exists u, unit_name. split; assumption.
Defined.

(** C9, counterexample: one byte below 1 MiB the unit stays KiB and the
    value shown is 1024.0, which is not below 1024. *)
Lemma human_readable_filesize_shows_1024 :
  human_readable_filesize 1048575 = Ok "1024.0 KiB"
  /\ ~ tenths (PyFloat (round_to_53 1048575) 1) < 10240.
Proof.
  split; [vm_compute; reflexivity |].
  vm_compute. discriminate.
Qed.

(** C10 (as amended).  For every integer [b >= 1024^9] the formatter raises
    instead of returning a string.  When [b] converts to a float the loop
    ends with a unit index of 8 or more and the lookup in [units] raises
    [IndexError]; when [b] is too large to convert, [b /= thresh] raises
    [OverflowError] before the loop. *)
Theorem human_readable_filesize_partial (b : Z) :
  1024 ^ 9 <= b ->
  (round_to_53 b < 2 ^ 1024 ->
     exists u : nat,
       (8 <= u)%nat
       /\ snd (while_thresh (Z.to_nat (Z.log2 (round_to_53 b)))
                (PyFloat (round_to_53 b) 1) 0) = u
       /\ units !! u = None
       /\ human_readable_filesize b = Raise IndexError)
  /\ (2 ^ 1024 <= round_to_53 b ->
      human_readable_filesize b = Raise OverflowError).
Proof.
  intros Hb.
  assert (H9 : 1024 ^ 9 = 2 ^ 90) by (vm_compute; reflexivity).
  assert (Hr : 1024 ^ 9 <= round_to_53 b).
  { rewrite H9 in *. apply round_to_53_ge; lia. }
  assert (Hb' : 1024 <= b) by (rewrite H9 in Hb; lia).
  split.
  - intros Hfin.
    destruct (human_readable_filesize_scaled b Hb' Hfin)
      as (u & Hbnd & Hloop & Hres).
    destruct (unit_index_large b u) as [Hu Hnone]; [lia |].
    exists u. rewrite Hnone in Hres. repeat split; assumption.
  - intros Hover. unfold human_readable_filesize.
    destruct (Z.ltb_spec b 1024) as [Hlt | _]; [lia |].
    rewrite float_of_int_overflow by lia. reflexivity.
Qed.

Lemma human_readable_filesize_partial_witness :
  human_readable_filesize (1024 ^ 9) = Raise IndexError
  /\ human_readable_filesize (2 ^ 1024) = Raise OverflowError.
Proof.
  split.
  - destruct (human_readable_filesize_partial (1024 ^ 9)) as [Hidx _].
    + lia.
    + destruct Hidx as (u & _ & _ & _ & Hres); [| exact Hres].
      vm_compute. reflexivity.
  - destruct (human_readable_filesize_partial (2 ^ 1024)) as [_ Hover].
    + vm_compute. discriminate.
    + apply Hover. vm_compute. discriminate.
Defined.

(** C10, counterexample: [2^1024] is at least [1024^9], and the formatter
    raises [OverflowError] on it, not [IndexError]. *)
Lemma human_readable_filesize_overflow :
  ~ (forall b : Z,
        1024 ^ 9 <= b -> human_readable_filesize b = Raise IndexError).
Proof.
  intros Hall.
  assert (Hle : 1024 ^ 9 <= 2 ^ 1024) by (vm_compute; discriminate).
  specialize (Hall (2 ^ 1024) Hle).
  vm_compute in Hall. discriminate.
Qed.

(** * Properties of the tracker *)

(** [file_write_func] on an entry that is there. *)
Lemma file_write_func_entry (self : CustomRequest) (filename : string)
  (length : Z) (e : progress_entry) :
  open_upload self -> entry self filename = Some e ->
  entry (fst (file_write_func self filename length)) filename =
    Some (ProgressEntry (uploaded_bytes e + length) (complete e))
  /\ snd (file_write_func self filename length) =
     (let/r _ := human_readable_filesize (uploaded_bytes e + length) in Ok tt)
  /\ open_upload (fst (file_write_func self filename length)).
Proof.
  intros [Hc Hu] He. unfold open_upload. destruct self as [c u o].
  simpl in Hc, Hu. subst c u. crunch.
Qed.

(** [file_write_func] without an entry. *)
Lemma file_write_func_missing (self : CustomRequest) (a : upload_attrs)
  (filename : string) (length : Z) :
  open_upload self -> upload self = Some a -> progress a !! filename = None ->
  file_write_func self filename length = (self, Raise (KeyError filename)).
Proof.
  intros [Hc Hu] Ha Hnone. unfold file_write_func.
  now rewrite Hc, Hu, Ha, Hnone.
Qed.

Lemma get_file_stream_entry (self : CustomRequest) (filename : string) :
  upload_request self = true -> is_Some (upload self) ->
  entry (fst (_get_file_stream self filename tt)) filename =
    Some (ProgressEntry 0 false)
  /\ closed (fst (_get_file_stream self filename tt)) = closed self
  /\ upload_request (fst (_get_file_stream self filename tt)) = true.
Proof.
  intros Hu [a Ha]. destruct self as [c u o]. simpl in Hu, Ha. subst u o.
  crunch.
Qed.

(** An event on another filename leaves the entry as it is. *)
Lemma step_entry_other (self : CustomRequest) (ev : event) (filename : string) :
  match ev with
  | EvStream g | EvWrite g _ | EvClose g => g <> filename
  end ->
  entry (fst (step self ev)) filename = entry self filename.
Proof.
  intros Hne. destruct self as [c u o], ev; crunch.
Qed.

Lemma exec_cons (self : CustomRequest) (ev : event) (evs : list event) :
  exec self (ev :: evs) = exec (fst (step self ev)) evs.
Proof. reflexivity. Qed.

Lemma exec_app (self : CustomRequest) (evs1 evs2 : list event) :
  exec self (evs1 ++ evs2) = exec (exec self evs1) evs2.
Proof. apply fold_left_app. Qed.

Lemma step_flags (self : CustomRequest) (ev : event) :
  closed (fst (step self ev)) = closed self
  /\ upload_request (fst (step self ev)) = upload_request self.
Proof. destruct self as [c u o], ev; crunch. Qed.

Lemma exec_flags (evs : list event) :
  forall self : CustomRequest,
    closed (exec self evs) = closed self
    /\ upload_request (exec self evs) = upload_request self.
Proof.
  induction evs as [| ev evs IH]; intros self; [done |].
  rewrite exec_cons. destruct (IH (fst (step self ev))) as [-> ->].
  apply step_flags.
Qed.

Lemma exec_writes (filename : string) (ds : list Z) :
  forall (self : CustomRequest) (e : progress_entry),
    open_upload self -> entry self filename = Some e ->
    entry (exec self (EvWrite filename <$> ds)) filename =
      Some (ProgressEntry (uploaded_bytes e + sum_list ds) (complete e)).
Proof.
  induction ds as [| d ds IH]; intros self e Hopen He.
  - cbn. rewrite He, Z.add_0_r. now destruct e.
  - destruct (file_write_func_entry self filename d e Hopen He)
      as (He' & _ & Hopen').
    rewrite fmap_cons, exec_cons. cbn [step].
    rewrite (IH _ _ Hopen' He'). cbn. f_equal. f_equal. lia.
Qed.

(** C1.  On an open upload request, once [_get_file_stream] has created the
    entry of a file, after every prefix of the writes reported for that
    file, the whole sequence included, [uploaded_bytes] is the sum of the
    deltas of that prefix. *)
Theorem uploaded_bytes_prefix_sum (self : CustomRequest) (filename : string)
  (ds : list Z) (k : nat) :
  closed self = false -> upload_request self = true -> is_Some (upload self) ->
  uploaded_bytes <$>
    entry (exec (fst (_get_file_stream self filename tt))
             (EvWrite filename <$> take k ds)) filename
  = Some (sum_list (take k ds)).
Proof.
  intros Hc Hu Ha.
  destruct (get_file_stream_entry self filename Hu Ha) as (He & Hc' & Hu').
  rewrite (exec_writes filename (take k ds) _ (ProgressEntry 0 false)).
  - reflexivity.
  - split; congruence.
  - exact He.
Qed.

Lemma uploaded_bytes_prefix_sum_witness :
  uploaded_bytes <$>
    entry (exec (fst (_get_file_stream
                        (Request false true (Some (UploadAttrs ∅ 350 None)))
                        "a.txt" tt))
             (EvWrite "a.txt" <$> take 2 [100; 100; 100])) "a.txt"
  = Some 200.
Proof.
  apply (uploaded_bytes_prefix_sum
           (Request false true (Some (UploadAttrs ∅ 350 None)))
           "a.txt" [100; 100; 100] 2).
  - reflexivity.
  - reflexivity.
  - eexists. reflexivity.
Defined.

(** C2 (as amended).  [file_write_func] does not create entries.  On an open
    upload request a write for a filename that has an entry adds the delta
    to [uploaded_bytes], keeps [complete], and does not raise when the
    formatter renders the new total; a write for a filename without an
    entry raises [KeyError] and leaves the request as it was.  The entry is
    created, with [uploaded_bytes = 0] and [complete = False], by
    [_get_file_stream], and a first write after it applies its delta to
    that entry. *)
Theorem file_write_func_needs_entry (self : CustomRequest) (a : upload_attrs)
  (filename : string) (length : Z) :
  open_upload self -> upload self = Some a ->
  (forall e : progress_entry,
      progress a !! filename = Some e ->
      entry (fst (file_write_func self filename length)) filename =
        Some (ProgressEntry (uploaded_bytes e + length) (complete e))
      /\ (is_ok (human_readable_filesize (uploaded_bytes e + length)) = true ->
          snd (file_write_func self filename length) = Ok tt))
  /\ (progress a !! filename = None ->
      file_write_func self filename length = (self, Raise (KeyError filename)))
  /\ entry (fst (_get_file_stream self filename tt)) filename =
       Some (ProgressEntry 0 false)
  /\ entry (exec self [EvStream filename; EvWrite filename length]) filename =
       Some (ProgressEntry length false).
Proof.
  intros Hopen Ha.
  assert (Hsome : is_Some (upload self)) by (rewrite Ha; eauto).
  destruct (get_file_stream_entry self filename (proj2 Hopen) Hsome)
    as (Hnew & Hc & Hu).
  repeat split.
  - destruct (file_write_func_entry self filename length e Hopen) as [He _];
      [unfold entry; now rewrite Ha | exact He].
  - intros Hok.
    destruct (file_write_func_entry self filename length e Hopen)
      as (_ & Hout & _); [unfold entry; now rewrite Ha |].
    rewrite Hout.
    destruct (human_readable_filesize (uploaded_bytes e + length));
      [reflexivity | discriminate].
  - now apply file_write_func_missing.
  - exact Hnew.
  - rewrite !exec_cons. cbn [exec fold_left].
    assert (Hfst : fst (step self (EvStream filename)) =
                   fst (_get_file_stream self filename tt)).
    { unfold step. now destruct (_get_file_stream self filename tt). }
    rewrite Hfst. cbn [step].
    destruct (file_write_func_entry (fst (_get_file_stream self filename tt))
                filename length (ProgressEntry 0 false)) as [He _].
    + destruct Hopen. split; congruence.
    + exact Hnew.
    + exact He.
Qed.

Lemma file_write_func_needs_entry_witness :
  entry (exec (Request false true (Some (UploadAttrs ∅ 350 None)))
           [EvStream "a.txt"; EvWrite "a.txt" 100]) "a.txt"
  = Some (ProgressEntry 100 false).
Proof.
  apply (file_write_func_needs_entry
           (Request false true (Some (UploadAttrs ∅ 350 None)))
           (UploadAttrs ∅ 350 None) "a.txt" 100).
  - split; reflexivity.
  - reflexivity.
Defined.

(** C2, counterexample: on the request that [__init__] builds for a POST,
    a write for a filename without an entry raises [KeyError] and creates
    nothing. *)
Lemma file_write_func_raises_key_error :
  __init__ int_of_digits "POST" None =
    Ok (Request false true (Some (UploadAttrs ∅ 0 None)))
  /\ file_write_func (Request false true (Some (UploadAttrs ∅ 0 None)))
       "a.txt" 5
     = (Request false true (Some (UploadAttrs ∅ 0 None)),
        Raise (KeyError "a.txt")).
Proof. split; vm_compute; reflexivity. Qed.

(** C3 (as amended).  On a request that has a progress dictionary,
    [file_close_func] for a filename without an entry raises [KeyError]; it
    creates no entry and leaves the request as it was.  For a filename with
    an entry it does not raise and sets [complete]. *)
Theorem file_close_func_needs_entry (self : CustomRequest) (a : upload_attrs)
  (filename : string) :
  upload self = Some a ->
  (progress a !! filename = None ->
     file_close_func self filename = (self, Raise (KeyError filename)))
  /\ (forall e : progress_entry,
        progress a !! filename = Some e ->
        snd (file_close_func self filename) = Ok tt
        /\ entry (fst (file_close_func self filename)) filename =
             Some (ProgressEntry (uploaded_bytes e) true)).
Proof.
  intros Ha. split.
  - intros Hnone. unfold file_close_func. now rewrite Ha, Hnone.
  - intros e He. destruct self as [c u o]. simpl in Ha. subst o. crunch.
Qed.

Lemma file_close_func_needs_entry_witness :
  file_close_func (Request false true (Some (UploadAttrs ∅ 0 None))) "a.txt"
  = (Request false true (Some (UploadAttrs ∅ 0 None)),
     Raise (KeyError "a.txt")).
Proof.
  apply (file_close_func_needs_entry
           (Request false true (Some (UploadAttrs ∅ 0 None)))
           (UploadAttrs ∅ 0 None) "a.txt").
  - reflexivity.
  - reflexivity.
Defined.

(** C3, counterexample: closing a filename the dictionary has never held
    raises [KeyError]. *)
Lemma file_close_func_raises_key_error :
  snd (file_close_func (Request false true (Some (UploadAttrs ∅ 0 None)))
         "never-seen.txt")
  = Raise (KeyError "never-seen.txt").
Proof. vm_compute. reflexivity. Qed.

Lemma step_entry_le (self : CustomRequest) (ev : event) (filename : string)
  (e : progress_entry) :
  entry self filename = Some e -> nonneg_write ev -> ev <> EvStream filename ->
  exists e' : progress_entry,
    entry (fst (step self ev)) filename = Some e' /\ entry_le e e'.
Proof.
  intros He Hnn Hns. unfold entry_le.
  destruct ev as [g | g n | g]; destruct (decide (g = filename)) as [-> | Hne].
  - congruence.
  - rewrite step_entry_other by exact Hne. eexists; split; [eassumption |].
    split; [lia | done].
  - destruct self as [c u o]. simpl in Hnn.
    crunch; eexists; (split; [first [eassumption | reflexivity] |]);
      cbn [uploaded_bytes complete]; split; (lia || done).
  - rewrite step_entry_other by exact Hne. eexists; split; [eassumption |].
    split; [lia | done].
  - destruct self as [c u o].
    crunch; eexists; (split; [first [eassumption | reflexivity] |]);
      cbn [uploaded_bytes complete]; split; (lia || done).
  - rewrite step_entry_other by exact Hne. eexists; split; [eassumption |].
    split; [lia | done].
Qed.

(** C4 (as amended).  Between any two observation points of a request that
    are separated only by write events with non-negative deltas, close
    events, and stream creations for other filenames, a file's
    [uploaded_bytes] does not decrease and its [complete] flag, once set,
    stays set, so it goes from false to true at most once.  A stream
    creation for the same filename starts the entry again at
    [uploaded_bytes = 0], [complete = False]. *)
Theorem entry_monotone_between_streams (self : CustomRequest)
  (filename : string) (evs1 evs2 : list event) (e : progress_entry) :
  entry (exec self evs1) filename = Some e ->
  Forall nonneg_write evs2 ->
  Forall (fun ev => ev <> EvStream filename) evs2 ->
  (exists e' : progress_entry,
      entry (exec self (evs1 ++ evs2)) filename = Some e' /\ entry_le e e')
  /\ (upload_request self = true ->
      entry (exec self (evs1 ++ [EvStream filename])) filename =
        Some (ProgressEntry 0 false)).
Proof.
  intros He Hnn Hns. split.
  - rewrite exec_app. generalize dependent e.
    generalize (exec self evs1) as s.
    induction evs2 as [| ev evs2 IH]; intros s e He.
    + exists e. split; [exact He |]. split; [lia | done].
    + inversion Hnn as [| ? ? Hnn1 Hnn2]; subst.
      inversion Hns as [| ? ? Hns1 Hns2]; subst.
      destruct (step_entry_le s ev filename e He Hnn1 Hns1)
        as (e1 & He1 & Hle1 & Hc1).
      destruct (IH Hnn2 Hns2 _ _ He1) as (e2 & He2 & Hle2 & Hc2).
      exists e2. rewrite exec_cons. split; [exact He2 |].
      split; [lia | auto].
  - intros Hu. rewrite exec_app, exec_cons. cbn [exec fold_left].
    destruct (exec_flags evs1 self) as [_ Hu1]. rewrite Hu in Hu1.
    assert (Hs : is_Some (upload (exec self evs1))).
    { unfold entry in He. destruct (upload (exec self evs1)); [eauto | done]. }
    destruct (get_file_stream_entry _ filename Hu1 Hs) as [Hnew _].
    unfold step. now destruct (_get_file_stream (exec self evs1) filename tt).
Qed.

Lemma entry_monotone_between_streams_witness :
  exists e' : progress_entry,
    entry (exec (Request false true (Some (UploadAttrs ∅ 350 None)))
             ([EvStream "a.txt"; EvWrite "a.txt" 100]
              ++ [EvWrite "a.txt" 200; EvClose "a.txt"; EvStream "b.txt";
                  EvWrite "b.txt" 50])) "a.txt" = Some e'
    /\ entry_le (ProgressEntry 100 false) e'.
Proof.
  apply (entry_monotone_between_streams
           (Request false true (Some (UploadAttrs ∅ 350 None))) "a.txt").
  - vm_compute. reflexivity.
  - repeat constructor; simpl; lia.
  - repeat constructor; discriminate.
Defined.

(** C4, counterexample: a second file part that declares the filename of a
    finished one takes its entry from 100 bytes, complete, back to 0 bytes,
    not complete. *)
Lemma second_stream_resets_entry :
  ~ (forall (self : CustomRequest) (filename : string)
       (evs1 evs2 : list event) (e e' : progress_entry),
        Forall nonneg_write evs2 ->
        entry (exec self evs1) filename = Some e ->
        entry (exec self (evs1 ++ evs2)) filename = Some e' ->
        entry_le e e').
Proof.
  intros Hall.
  destruct (Hall (Request false true (Some (UploadAttrs ∅ 350 None))) "a.txt"
              [EvStream "a.txt"; EvWrite "a.txt" 100; EvClose "a.txt"]
              [EvStream "a.txt"]
              (ProgressEntry 100 true) (ProgressEntry 0 false))
    as [Hbytes _].
  - repeat constructor.
  - vm_compute. reflexivity.
  - vm_compute. reflexivity.
  - simpl in Hbytes. lia.
Qed.

(** ** [close] *)

Lemma set_closed_true (self : CustomRequest) :
  closed self = true -> set_closed self true = self.
Proof. destruct self as [c u o]. simpl. now intros ->. Qed.

Lemma close_closed (super_close : CustomRequest -> CustomRequest * result unit)
  (self self' : CustomRequest) :
  close super_close self = (self', Ok tt) -> closed self' = true.
Proof.
  unfold close. destruct (super_close self) as [s1 [[] | x]]; [| discriminate].
  destruct (closed s1) eqn:Hc; intros [= <-]; [exact Hc | reflexivity].
Qed.

Lemma file_close_func_set_closed (self : CustomRequest) (c : bool)
  (filename : string) :
  fst (file_close_func (set_closed self c) filename) =
  set_closed (fst (file_close_func self filename)) c.
Proof. destruct self as [c0 u o]. crunch. Qed.

Lemma file_close_func_idem (self : CustomRequest) (filename : string) :
  fst (file_close_func (fst (file_close_func self filename)) filename) =
  fst (file_close_func self filename).
Proof.
  destruct self as [c u [a |]]; [| reflexivity].
  unfold file_close_func, set_upload, set_progress. cbn [upload].
  destruct (progress a !! filename) as [e |] eqn:He;
    cbn [fst upload progress closed upload_request content_length
         previous_file].
  - rewrite lookup_insert_eq. cbn [fst uploaded_bytes].
    now rewrite insert_insert_eq.
  - now rewrite He.
Qed.

(** C5.  [close] is idempotent.  The inherited [Request.close] is a
    parameter; it is taken not to raise, not to depend on the [closed]
    flag, and to act on the request the same whether it ran before or not.
    Then the first call of [close] leaves [closed] set and does not raise,
    and a second call returns the state and outcome of the first: [closed]
    and every progress entry are unchanged. *)
Theorem close_idempotent
  (super_close : CustomRequest -> CustomRequest * result unit)
  (self : CustomRequest) :
  (forall s, snd (super_close s) = Ok tt) ->
  (forall s c, fst (super_close (set_closed s c)) =
               set_closed (fst (super_close s)) c) ->
  (forall s, fst (super_close (fst (super_close s))) = fst (super_close s)) ->
  closed (fst (close super_close self)) = true
  /\ snd (close super_close self) = Ok tt
  /\ close super_close (fst (close super_close self)) = close super_close self.
Proof.
  intros Hok Hflag Hidem.
  assert (Hrun : forall s,
             close super_close s = (set_closed (fst (super_close s)) true, Ok tt)).
  { intros s. unfold close. specialize (Hok s).
    destruct (super_close s) as [s1 [[] | x]]; [| discriminate]. cbn [fst].
    destruct (closed s1) eqn:Hc; [| reflexivity].
    now rewrite set_closed_true. }
  rewrite !Hrun. cbn [fst snd].
  split; [reflexivity |]. split; [reflexivity |].
  rewrite Hflag, Hidem. reflexivity.
Qed.

Lemma close_idempotent_witness :
  close (super_close_one "a.txt")
    (fst (close (super_close_one "a.txt")
            (exec (Request false true (Some (UploadAttrs ∅ 350 None)))
               [EvStream "a.txt"; EvWrite "a.txt" 100])))
  = close (super_close_one "a.txt")
      (exec (Request false true (Some (UploadAttrs ∅ 350 None)))
         [EvStream "a.txt"; EvWrite "a.txt" 100]).
Proof.
  apply (close_idempotent (super_close_one "a.txt")).
  - reflexivity.
  - intros s c. apply file_close_func_set_closed.
  - intros s. apply file_close_func_idem.
Defined.

(** C8.  Once [close] has returned, [closed] is set and stays set through
    every later event of the request, and each later call of
    [file_write_func], for any filename and any delta, returns at once:
    the request, with every progress entry, is unchanged. *)
Theorem writes_ignored_after_close
  (super_close : CustomRequest -> CustomRequest * result unit)
  (self self' : CustomRequest) (evs : list event)
  (filename : string) (length : Z) :
  close super_close self = (self', Ok tt) ->
  closed (exec self' evs) = true
  /\ file_write_func (exec self' evs) filename length =
       (exec self' evs, Ok tt).
Proof.
  intros Hclose. apply close_closed in Hclose.
  destruct (exec_flags evs self') as [Hc _]. rewrite Hclose in Hc.
  split; [exact Hc |]. unfold file_write_func. now rewrite Hc.
Qed.

Lemma writes_ignored_after_close_witness :
  file_write_func
    (exec (Request true true
             (Some (UploadAttrs
                      {["a.txt" := ProgressEntry 100 true]} 350 (Some "a.txt"))))
       [EvClose "a.txt"])
    "a.txt" 100
  = (exec (Request true true
             (Some (UploadAttrs
                      {["a.txt" := ProgressEntry 100 true]} 350 (Some "a.txt"))))
       [EvClose "a.txt"],
     Ok tt).
Proof.
  apply (writes_ignored_after_close (super_close_one "a.txt")
           (exec (Request false true (Some (UploadAttrs ∅ 350 None)))
              [EvStream "a.txt"; EvWrite "a.txt" 100])).
  vm_compute. reflexivity.
Defined.

(** ** The declared length *)

Lemma step_with_content_length (n : Z) (self : CustomRequest) (ev : event) :
  step (with_content_length n self) ev =
  (with_content_length n (fst (step self ev)), snd (step self ev)).
Proof.
  unfold with_content_length, set_content_length.
  destruct self as [c u [a |]], ev; crunch.
Qed.

Lemma exec_with_content_length (n : Z) (evs : list event) :
  forall self : CustomRequest,
    exec (with_content_length n self) evs = with_content_length n (exec self evs)
    /\ outcomes (with_content_length n self) evs = outcomes self evs.
Proof.
  induction evs as [| ev evs IH]; intros self; [done |].
  rewrite !exec_cons. cbn [outcomes].
  rewrite step_with_content_length. cbn [fst snd].
  destruct (IH (fst (step self ev))) as [-> ->]. done.
Qed.

(** C6.  When the [Content-Length] header of a POST is absent or [int()]
    rejects it, [__init__] does not raise and sets [content_length] to 0.
    The events of the request then have the outcomes, and leave the
    progress entries, [closed] and [previous_file], that they have on a
    request built from any header with which [__init__] returns: the two
    requests differ in [content_length] only. *)
Theorem content_length_unknown (int : string -> option Z)
  (hdr : option string) :
  hdr = None \/ (exists s : string, hdr = Some s /\ int s = None) ->
  exists self : CustomRequest,
    __init__ int "POST" hdr = Ok self
    /\ content_length <$> upload self = Some 0
    /\ forall (hdr' : option string) (self' : CustomRequest)
         (evs : list event),
         __init__ int "POST" hdr' = Ok self' ->
         outcomes self evs = outcomes self' evs
         /\ exec self evs = with_content_length 0 (exec self' evs).
Proof.
  intros Hhdr.
  assert (Hlen : parse_content_length int hdr = 0).
  { destruct Hhdr as [-> | (s & -> & Hs)]; [reflexivity |].
    unfold parse_content_length. now rewrite Hs. }
  exists (Request false true (Some (UploadAttrs ∅ 0 None))).
  split; [| split].
  - unfold __init__. cbn [String.eqb Ascii.eqb Bool.eqb]. now rewrite Hlen.
  - reflexivity.
  - intros hdr' self' evs. unfold __init__.
    cbn [String.eqb Ascii.eqb Bool.eqb].
    destruct (human_readable_filesize (parse_content_length int hdr'));
      [| discriminate].
    intros [= <-].
    change (Request false true (Some (UploadAttrs ∅ 0 None)))
      with (with_content_length 0
              (Request false true
                 (Some (UploadAttrs ∅ (parse_content_length int hdr') None)))).
    destruct (exec_with_content_length 0 evs
                (Request false true
                   (Some (UploadAttrs ∅ (parse_content_length int hdr') None))))
      as [-> ->].
    done.
Qed.

Lemma content_length_unknown_witness :
  exists self : CustomRequest,
    __init__ int_of_digits "POST" (Some "12 bytes") = Ok self
    /\ content_length <$> upload self = Some 0
    /\ forall (hdr' : option string) (self' : CustomRequest)
         (evs : list event),
         __init__ int_of_digits "POST" hdr' = Ok self' ->
         outcomes self evs = outcomes self' evs
         /\ exec self evs = with_content_length 0 (exec self' evs).
Proof.
  apply (content_length_unknown int_of_digits (Some "12 bytes")).
  right. exists "12 bytes"%string. split; [reflexivity |].
  vm_compute. reflexivity.
Defined.

(** ** The wrapper *)

(** C7.  [CustomTemporaryFile.write] writes to the wrapped file first.  If
    that write returns [n], the write callback is called with the
    wrapper's filename and [n], the count the wrapped file returned; if it
    raises, the exception propagates and the callback is not called, so the
    tracker is unchanged.  [CustomTemporaryFile.close] closes the wrapped
    file first.  If that returns, the close callback is called with the
    wrapper's filename; if it raises, the exception propagates and the
    callback is not called. *)
Theorem wrapper_reports_after_file {F R : Type} `{FileLike F}
  (self : CustomTemporaryFile F R) (b : list byte) (r : R) :
  (forall (f' : F) (n : Z),
      file_write (f self) b = (f', Ok n) ->
      CustomTemporaryFile_write self b r =
        (set_f self f',
         fst (onionshare_write_func self r (onionshare_filename self) n),
         snd (onionshare_write_func self r (onionshare_filename self) n)))
  /\ (forall (f' : F) (e : exn),
        file_write (f self) b = (f', Raise e) ->
        CustomTemporaryFile_write self b r = (set_f self f', r, Raise e))
  /\ (forall f' : F,
        file_close (f self) = (f', Ok tt) ->
        CustomTemporaryFile_close self r =
          (set_f self f',
           fst (onionshare_close_func self r (onionshare_filename self)),
           snd (onionshare_close_func self r (onionshare_filename self))))
  /\ (forall (f' : F) (e : exn),
        file_close (f self) = (f', Raise e) ->
        CustomTemporaryFile_close self r = (set_f self f', r, Raise e)).
Proof.
  unfold CustomTemporaryFile_write, CustomTemporaryFile_close.
  split; [| split; [| split]].
  - intros f' n Hw. rewrite Hw.
    now destruct (onionshare_write_func self r (onionshare_filename self) n).
  - intros f' e Hw. now rewrite Hw.
  - intros f' Hc. rewrite Hc.
    now destruct (onionshare_close_func self r (onionshare_filename self)).
  - intros f' e Hc. now rewrite Hc.
Qed.

Lemma wrapper_reports_after_file_witness :
  CustomTemporaryFile_write
    (TemporaryFileWrapper "a.txt" file_write_func file_close_func
       (MemFile [] 4 false))
    [x61; x62; x63; x64; x65]%byte
    (Request false true
       (Some (UploadAttrs {["a.txt" := ProgressEntry 0 false]} 5 None)))
  = (TemporaryFileWrapper "a.txt" file_write_func file_close_func
       (MemFile [] 4 false),
     Request false true
       (Some (UploadAttrs {["a.txt" := ProgressEntry 0 false]} 5 None)),
     Raise (OSError "No space left on device")).
Proof.
  apply (wrapper_reports_after_file
           (TemporaryFileWrapper "a.txt" file_write_func file_close_func
              (MemFile [] 4 false))).
  reflexivity.
Defined.

(** * Further properties of the formatter *)

Lemma round_to_53_at_limit (b : Z) :
  2 ^ 90 - 2 ^ 36 <= b -> 2 ^ 90 <= round_to_53 b.
Proof.
  intros Hb.
  destruct (Z.lt_ge_cases b (2 ^ 90)) as [Hlt | Hge];
    [| apply round_to_53_ge; lia].
  assert (Hlog : Z.log2 b = 89) by (apply Z.log2_unique; lia).
  unfold round_to_53. rewrite Hlog.
  destruct (Z.ltb_spec b (2 ^ 53)) as [Hsmall | _]; [lia |].
  change (89 - 52) with 37. change (37 - 1) with 36.
  rewrite Z.shiftr_div_pow2 by lia.
  assert (Hq : b / 2 ^ 37 = 2 ^ 53 - 1).
  { symmetry. apply Z.div_unique with (r := b - 2 ^ 37 * (2 ^ 53 - 1)); lia. }
  rewrite Hq. rewrite !Z.shiftl_mul_pow2 by lia.
  assert (Hcond : ((1 * 2 ^ 36 <? b - (2 ^ 53 - 1) * 2 ^ 37)
                   || ((b - (2 ^ 53 - 1) * 2 ^ 37 =? 1 * 2 ^ 36)
                       && Z.odd (2 ^ 53 - 1))) = true).
  { change (Z.odd (2 ^ 53 - 1)) with true. rewrite andb_true_r.
    apply orb_true_iff.
    destruct (Z.eq_dec (b - (2 ^ 53 - 1) * 2 ^ 37) (1 * 2 ^ 36)) as [He | Hn].
    - right. now apply Z.eqb_eq.
    - left. apply Z.ltb_lt. lia. }
  rewrite Hcond. lia.
Qed.

Lemma round_to_53_below_limit (b : Z) :
  0 <= b < 2 ^ 90 - 2 ^ 36 -> round_to_53 b < 2 ^ 90.
Proof.
  intros [Hb0 Hb].
  destruct (Z.lt_ge_cases b (2 ^ 53)) as [Hsmall | Hbig].
  { rewrite round_to_53_small; lia. }
  assert (Hpos : 0 < b) by lia.
  assert (Hlo : 53 <= Z.log2 b) by (apply Z.log2_le_pow2; lia).
  assert (Hhi : Z.log2 b < 90) by (apply Z.log2_lt_pow2; lia).
  destruct (Z.log2_spec b Hpos) as [Hl1 Hl2].
  unfold round_to_53.
  destruct (Z.ltb_spec b (2 ^ 53)) as [Hlt | _]; [lia |].
  set (e := Z.log2 b - 52) in *.
  assert (He : 1 <= e <= 37) by lia.
  assert (H2e : 0 < 2 ^ e) by (apply Z.pow_pos_nonneg; lia).
  assert (Hsucc : 2 ^ Z.succ (Z.log2 b) = 2 ^ 53 * 2 ^ e).
  { rewrite <- Z.pow_add_r by lia. f_equal. lia. }
  rewrite Z.shiftr_div_pow2 by lia.
  rewrite !Z.shiftl_mul_pow2 by lia.
  set (q := b / 2 ^ e) in *.
  pose proof (Z.mul_div_le b (2 ^ e) H2e) as Hq1.
  pose proof (Z.mul_succ_div_gt b (2 ^ e) H2e) as Hq2.
  fold q in Hq1, Hq2.
  assert (Hq : q < 2 ^ 53) by (apply Z.div_lt_upper_bound; lia).
  destruct (Z.eq_dec e 37) as [He37 | Hne].
  - rewrite He37 in *. change (37 - 1) with 36.
    destruct (Z.eq_dec q (2 ^ 53 - 1)) as [Hqmax | Hqn].
    + assert (Hcond : ((1 * 2 ^ 36 <? b - q * 2 ^ 37)
                       || ((b - q * 2 ^ 37 =? 1 * 2 ^ 36) && Z.odd q)) = false).
      { apply orb_false_iff. split.
        - apply Z.ltb_ge. lia.
        - apply andb_false_iff. left. apply Z.eqb_neq. lia. }
      rewrite Hcond. lia.
    + destruct (_ || _); lia.
  - assert (Hpow : 2 ^ 53 * 2 ^ e <= 2 ^ 89).
    { rewrite <- Z.pow_add_r by lia. apply Z.pow_le_mono_r; lia. }
    assert (Hq' : forall c : bool, (if c then q + 1 else q) * 2 ^ e <= 2 ^ 89).
    { intros c. transitivity (2 ^ 53 * 2 ^ e); [| exact Hpow].
      apply Z.mul_le_mono_nonneg_r; [lia |]. destruct c; lia. }
    specialize (Hq' ((1 * 2 ^ (e - 1) <? b - q * 2 ^ e)
                     || ((b - q * 2 ^ e =? 1 * 2 ^ (e - 1)) && Z.odd q))).
    lia.
Qed.

(** Exactly the non-negative integers below [2^90 - 2^36] have a float
    below [1024^9]. *)
Lemma human_readable_filesize_ok_iff (b : Z) :
  0 <= b ->
  is_ok (human_readable_filesize b) = true <-> b < 2 ^ 90 - 2 ^ 36.
Proof.
  intros Hb0.
  assert (H9 : 1024 ^ 9 = 2 ^ 90) by (vm_compute; reflexivity).
  assert (Hmax : 2 ^ 90 < 2 ^ 1024) by (vm_compute; reflexivity).
  split.
  - intros Hok.
    destruct (Z.lt_ge_cases b (2 ^ 90 - 2 ^ 36)) as [Hlt | Hge]; [exact Hlt |].
    exfalso.
    pose proof (round_to_53_at_limit b Hge) as Hr.
    destruct (Z.lt_ge_cases (round_to_53 b) (2 ^ 1024)) as [Hfin | Hover].
    + destruct (human_readable_filesize_scaled b) as (u & Hbnd & _ & Hres);
        [lia | exact Hfin |].
      destruct (unit_index_large b u) as [_ Hnone]; [rewrite H9; lia |].
      rewrite Hres, Hnone in Hok. discriminate.
    + unfold human_readable_filesize in Hok.
      destruct (Z.ltb_spec b 1024) as [Hsmall | _]; [lia |].
      rewrite float_of_int_overflow in Hok by lia. discriminate.
  - intros Hlt.
    destruct (Z.lt_ge_cases b 1024) as [Hsmall | Hbig].
    + now rewrite human_readable_filesize_bytes by lia.
    + pose proof (round_to_53_below_limit b (conj Hb0 Hlt)) as Hr.
      destruct (human_readable_filesize_scaled b) as (u & Hbnd & _ & Hres);
        [lia | lia |].
      assert (Hu : (u < 8)%nat).
      { assert (Z.of_nat (S u) < 9) by (apply pow_1024_lt_inv; lia). lia. }
      destruct (lookup_lt_is_Some_2 units u) as [unit_name Hname];
        [exact Hu |].
      now rewrite Hres, Hname.
Qed.

(** X2.  A negative integer is below [thresh] whatever its size, so the
    formatter renders it in B, never in a larger unit: for
    [-2^53 < b < 0] the result is ["-<|b|>.0 B"]. *)
Lemma human_readable_filesize_negative_bytes (b : Z) :
  - 2 ^ 53 < b < 0 ->
  human_readable_filesize b = Ok ("-" +:+ dec (- b) +:+ ".0 B").
Proof.
  intros Hb. unfold human_readable_filesize.
  destruct (Z.ltb_spec b 1024) as [_ | Hge]; [| lia].
  unfold float_of_int.
  rewrite Z.abs_neq by lia. rewrite round_to_53_small by lia.
  assert (Hmax : 2 ^ 53 < 2 ^ 1024) by (vm_compute; reflexivity).
  destruct (Z.leb_spec (2 ^ 1024) (- b)) as [Hover | _]; [lia |].
  rewrite Z.sgn_neg by lia.
  unfold bind, format_1f, tenths, round_half_even. cbn [fnum fdiv].
  replace (-1 * - b) with b by lia.
  rewrite Z.abs_neq by lia.
  change (1024 ^ Z.of_nat 0) with 1.
  rewrite Z.mod_1_r, Z.div_1_r.
  destruct (Z.ltb_spec b 0) as [_ | Hnn]; [| lia].
  change (2 * 0 <? 1) with true. cbv iota.
  replace (10 * - b / 10) with (- b) by (rewrite Z.mul_comm, Z.div_mul; lia).
  replace ((10 * - b) mod 10) with 0
    by (rewrite Z.mul_comm, Z.mod_mul; lia).
  change (dec 0) with "0"%string.
  f_equal. rewrite !append_assoc. reflexivity.
Qed.

(** X1.  A non-negative integer is rendered exactly when it is below
    [2^90 - 2^36].  From there on the formatter raises, [IndexError] or
    [OverflowError]; this takes in the [2^36] integers just below [1024^9],
    which [float()] rounds up to [1024^9]. *)
Theorem human_readable_filesize_domain (b : Z) :
  0 <= b ->
  (b < 2 ^ 90 - 2 ^ 36 -> exists s : string, human_readable_filesize b = Ok s)
  /\ (2 ^ 90 - 2 ^ 36 <= b ->
      human_readable_filesize b = Raise IndexError
      \/ human_readable_filesize b = Raise OverflowError).
Proof.
  intros Hb0. split.
  - intros Hlt. apply (human_readable_filesize_ok_iff b Hb0) in Hlt.
    destruct (human_readable_filesize b) as [s |]; [eauto | discriminate].
  - intros Hge.
    assert (H9 : 1024 ^ 9 = 2 ^ 90) by (vm_compute; reflexivity).
    pose proof (round_to_53_at_limit b Hge) as Hr.
    destruct (Z.lt_ge_cases (round_to_53 b) (2 ^ 1024)) as [Hfin | Hover].
    + left.
      destruct (human_readable_filesize_scaled b) as (u & Hbnd & _ & Hres);
        [lia | exact Hfin |].
      destruct (unit_index_large b u) as [_ Hnone]; [rewrite H9; lia |].
      now rewrite Hres, Hnone.
    + right. unfold human_readable_filesize.
      destruct (Z.ltb_spec b 1024) as [Hsmall | _]; [lia |].
      now rewrite float_of_int_overflow by lia.
Qed.

Lemma human_readable_filesize_domain_witness :
  human_readable_filesize (2 ^ 90 - 2 ^ 36) = Raise IndexError
  \/ human_readable_filesize (2 ^ 90 - 2 ^ 36) = Raise OverflowError.
Proof.
  apply (human_readable_filesize_domain (2 ^ 90 - 2 ^ 36)).
  - vm_compute. discriminate.
  - lia.
Defined.

Lemma human_readable_filesize_negative_bytes_witness :
  human_readable_filesize (-5) = Ok ("-" +:+ dec (- -5) +:+ ".0 B").
Proof. apply human_readable_filesize_negative_bytes. lia. Defined.

(** X3.  The loop of the formatter ends by its own test.  For every
    integer from 1024 up that converts to a float, the run with the
    iteration bound of [human_readable_filesize] and the run with any
    larger bound give the same result, and that result is below
    [thresh]. *)
Theorem while_thresh_terminates (b : Z) (fuel : nat) :
  1024 <= b -> round_to_53 b < 2 ^ 1024 ->
  (Z.to_nat (Z.log2 (round_to_53 b)) <= fuel)%nat ->
  while_thresh fuel (PyFloat (round_to_53 b) 1) 0 =
    while_thresh (Z.to_nat (Z.log2 (round_to_53 b)))
      (PyFloat (round_to_53 b) 1) 0
  /\ float_ge_thresh
       (fst (while_thresh fuel (PyFloat (round_to_53 b) 1) 0)) = false.
Proof.
  intros Hb Hfin Hfuel.
  set (F := round_to_53 b) in *.
  assert (HF : 1024 <= F).
  { change 1024 with (2 ^ 10). apply round_to_53_ge; [lia |].
    change (2 ^ 10) with 1024. lia. }
  pose proof (Z.log2_nonneg F) as Hlog.
  destruct (while_thresh_exit fuel F 1 0) as (j & Hrun & Hbnd);
    [change (1024 ^ Z.of_nat 1) with 1024; lia | lia |].
  destruct (while_thresh_exit (Z.to_nat (Z.log2 F)) F 1 0)
    as (j' & Hrun' & Hbnd');
    [change (1024 ^ Z.of_nat 1) with 1024; lia | lia |].
  assert (Hj : j = j').
  { assert (Z.of_nat (1 + j) < Z.of_nat (S (1 + j')))
      by (apply pow_1024_lt_inv; lia).
    assert (Z.of_nat (1 + j') < Z.of_nat (S (1 + j)))
      by (apply pow_1024_lt_inv; lia).
    lia. }
  subst j'. rewrite Hrun, Hrun'. split; [reflexivity |].
  cbn [fst]. unfold float_ge_thresh. cbn [fnum fdiv].
  apply Z.leb_gt. rewrite <- pow_1024_succ. lia.
Qed.

Lemma while_thresh_terminates_witness :
  float_ge_thresh
    (fst (while_thresh 1000 (PyFloat (round_to_53 1572864) 1) 0)) = false.
Proof.
  apply (while_thresh_terminates 1572864 1000).
  - lia.
  - vm_compute. reflexivity.
  - vm_compute. lia.
Defined.

(** * Further properties of the request *)

(** X4.  For a POST whose [Content-Length] parses to a non-negative [n],
    [__init__] returns the fresh request (not closed, empty dictionary,
    [content_length = n], no previous file) when [n < 2^90 - 2^36], and
    raises, from the formatter inside its [print], when [n] is larger. *)
Theorem init_declared_length (int : string -> option Z) (s : string) (n : Z) :
  int s = Some n -> 0 <= n ->
  (n < 2 ^ 90 - 2 ^ 36 ->
     __init__ int "POST" (Some s) =
       Ok (Request false true (Some (UploadAttrs ∅ n None))))
  /\ (2 ^ 90 - 2 ^ 36 <= n -> is_ok (__init__ int "POST" (Some s)) = false).
Proof.
  intros Hs Hn. unfold __init__. cbn [String.eqb Ascii.eqb Bool.eqb].
  unfold parse_content_length. rewrite Hs.
  pose proof (human_readable_filesize_ok_iff n Hn) as Hiff.
  destruct (human_readable_filesize n) as [r | x]; cbn [bind is_ok] in *.
  - split; [reflexivity |]. intros Hge.
    assert (n < 2 ^ 90 - 2 ^ 36) by now apply Hiff. lia.
  - split; [| reflexivity]. intros Hlt. apply Hiff in Hlt. discriminate.
Qed.

Lemma init_declared_length_witness :
  __init__ int_of_digits "POST" (Some "350") =
    Ok (Request false true (Some (UploadAttrs ∅ 350 None))).
Proof.
  apply (init_declared_length int_of_digits "350" 350).
  - vm_compute. reflexivity.
  - lia.
  - lia.
Defined.

Lemma step_without_tracker (ev : event) :
  step (Request false false None) ev =
  (Request false false None, outcome_without_tracker ev).
Proof. destruct ev; reflexivity. Qed.

(** X5.  A request of another method than POST gets no dictionary, whatever
    its headers.  No event changes it: stream creations and writes return,
    and every close of a stream raises [AttributeError], as
    [file_close_func] reads [self.progress] without looking at
    [upload_request]. *)
Theorem request_without_tracker (int : string -> option Z) (method : string)
  (hdr : option string) (evs : list event) :
  String.eqb method "POST" = false ->
  __init__ int method hdr = Ok (Request false false None)
  /\ exec (Request false false None) evs = Request false false None
  /\ outcomes (Request false false None) evs = outcome_without_tracker <$> evs.
Proof.
  intros Hm. split; [unfold __init__; now rewrite Hm |].
  induction evs as [| ev evs [IH1 IH2]]; [done |].
  rewrite exec_cons. cbn [outcomes]. rewrite step_without_tracker.
  cbn [fst snd]. rewrite IH1, IH2. done.
Qed.

Lemma request_without_tracker_witness :
  outcomes (Request false false None)
    [EvStream "a.txt"; EvWrite "a.txt" 100; EvClose "a.txt"]
  = [Ok tt; Ok tt; Raise (AttributeError "progress")].
Proof.
  apply (request_without_tracker int_of_digits "PUT" (Some "100")
           [EvStream "a.txt"; EvWrite "a.txt" 100; EvClose "a.txt"]).
  reflexivity.
Defined.

Lemma step_keys (self : CustomRequest) (a : upload_attrs) (ev : event) :
  upload_request self = true -> upload self = Some a ->
  exists a' : upload_attrs,
    upload (fst (step self ev)) = Some a'
    /\ dom (progress a') = dom (progress a) ∪ list_to_set (streamed [ev]).
Proof.
  intros Hu Ha. destruct self as [c u o]. cbn in Hu, Ha. subst u o.
  destruct ev as [g | g n | g]; crunch; eexists; (split; [reflexivity |]);
    reduce_fields; rewrite ?dom_insert_L; cbn [streamed list_to_set];
    repeat match goal with
           | Hl : progress a !! _ = Some _ |- _ => apply elem_of_dom_2 in Hl
           end;
    apply set_eq; intros x;
    rewrite ?elem_of_union, ?elem_of_singleton, ?elem_of_empty;
    intuition congruence.
Qed.

Lemma streamed_cons (ev : event) (evs : list event) :
  streamed (ev :: evs) = streamed [ev] ++ streamed evs.
Proof. destruct ev; reflexivity. Qed.

(** X6.  On an upload request the keys of the progress dictionary after a
    sequence of events are the keys it had before together with the
    filenames for which [_get_file_stream] ran: only a stream creation
    adds a key, and no event removes one. *)
Theorem progress_keys (self : CustomRequest) (a : upload_attrs)
  (evs : list event) :
  upload_request self = true -> upload self = Some a ->
  exists a' : upload_attrs,
    upload (exec self evs) = Some a'
    /\ dom (progress a') = dom (progress a) ∪ list_to_set (streamed evs).
Proof.
  revert self a. induction evs as [| ev evs IH]; intros self a Hu Ha.
  - exists a. split; [exact Ha |]. cbn [streamed list_to_set].
    now rewrite (right_id_L ∅ (∪)).
  - destruct (step_keys self a ev Hu Ha) as (a1 & Ha1 & Hdom1).
    destruct (step_flags self ev) as [_ Hu1]. rewrite Hu in Hu1.
    destruct (IH _ _ Hu1 Ha1) as (a2 & Ha2 & Hdom2).
    exists a2. rewrite exec_cons. split; [exact Ha2 |].
    rewrite streamed_cons, list_to_set_app_L, Hdom2, Hdom1.
    now rewrite (assoc_L (∪)).
Qed.

Lemma progress_keys_witness :
  exists a' : upload_attrs,
    upload (exec (Request false true (Some (UploadAttrs ∅ 350 None)))
              [EvStream "a.txt"; EvWrite "a.txt" 100; EvWrite "c.txt" 7;
               EvClose "a.txt"; EvStream "b.txt"]) = Some a'
    /\ dom (progress a') =
       dom (progress (UploadAttrs ∅ 350 None))
       ∪ list_to_set
           (streamed [EvStream "a.txt"; EvWrite "a.txt" 100;
                      EvWrite "c.txt" 7; EvClose "a.txt"; EvStream "b.txt"]).
Proof.
  apply (progress_keys (Request false true (Some (UploadAttrs ∅ 350 None)))).
  - reflexivity.
  - reflexivity.
Defined.

Lemma step_previous_file_known (self : CustomRequest) (ev : event) :
  previous_file_known self -> previous_file_known (fst (step self ev)).
Proof.
  unfold previous_file_known. destruct self as [c u o].
  destruct ev as [g | g n | g]; crunch;
    rewrite ?lookup_insert_is_Some; eauto; simplify_eq;
    match goal with
    | |- _ -> ?g = ?h \/ _ => intros ?; destruct (decide (g = h)); eauto
    end.
Qed.

(** X7.  [previous_file] never names a file the dictionary does not hold:
    if that is so before a sequence of events, it is so after it.  It is
    so on the request [__init__] builds, whose [previous_file] is [None]. *)
Theorem previous_file_stays_known (self : CustomRequest) (evs : list event) :
  previous_file_known self -> previous_file_known (exec self evs).
Proof.
  revert self. induction evs as [| ev evs IH]; intros self Hk; [exact Hk |].
  rewrite exec_cons. apply IH. now apply step_previous_file_known.
Qed.

Lemma previous_file_stays_known_witness :
  previous_file_known
    (exec (Request false true (Some (UploadAttrs ∅ 350 None)))
       [EvStream "a.txt"; EvWrite "a.txt" 100; EvWrite "b.txt" 5]).
Proof.
  apply (previous_file_stays_known
           (Request false true (Some (UploadAttrs ∅ 350 None)))).
  exact I.
Defined.

Lemma step_entry_open (self : CustomRequest) (ev : event) (filename : string)
  (e : progress_entry) :
  open_upload self -> entry self filename = Some e ->
  ev <> EvStream filename ->
  entry (fst (step self ev)) filename =
    Some (ProgressEntry (uploaded_bytes e + written filename ev)
            (complete e || closed_by filename ev))
  /\ open_upload (fst (step self ev)).
Proof.
  intros [Hc Hu] He Hns.
  destruct (step_flags self ev) as [Hc' Hu'].
  split; [| split; congruence].
  assert (Hsame : Some e =
                  Some (ProgressEntry (uploaded_bytes e + 0)
                          (complete e || false))).
  { rewrite Z.add_0_r, orb_false_r. now destruct e. }
  destruct ev as [g | g n | g]; destruct (decide (g = filename)) as [-> | Hne];
    cbn [written closed_by]; rewrite ?decide_True by done;
    rewrite ?decide_False by done; rewrite ?bool_decide_eq_true_2 by done;
    rewrite ?bool_decide_eq_false_2 by done.
  - congruence.
  - rewrite step_entry_other by exact Hne. now rewrite He.
  - destruct (file_write_func_entry self filename n e (conj Hc Hu) He)
      as [Hw _]. cbn [step]. rewrite Hw. now rewrite orb_false_r.
  - rewrite step_entry_other by exact Hne. now rewrite He.
  - destruct self as [c u o]. crunch. now rewrite Z.add_0_r, orb_true_r.
  - rewrite step_entry_other by exact Hne. now rewrite He.
Qed.

Lemma exec_entry_open (filename : string) (evs : list event) :
  forall (self : CustomRequest) (e : progress_entry),
    open_upload self -> entry self filename = Some e ->
    Forall (fun ev => ev <> EvStream filename) evs ->
    entry (exec self evs) filename =
      Some (ProgressEntry
              (uploaded_bytes e + sum_list (written filename <$> evs))
              (complete e || existsb (closed_by filename) evs)).
Proof.
  induction evs as [| ev evs IH]; intros self e Hopen He Hns.
  - cbn. rewrite He, Z.add_0_r, orb_false_r. now destruct e.
  - inversion Hns as [| ? ? Hns1 Hns2]; subst.
    destruct (step_entry_open self ev filename e Hopen He Hns1)
      as [He1 Hopen1].
    rewrite exec_cons, (IH _ _ Hopen1 He1 Hns2).
    cbn [uploaded_bytes complete fmap list_fmap sum_list existsb].
    f_equal. f_equal; [lia | now rewrite orb_assoc].
Qed.

(** X8.  On an open upload request, from the creation of a file's stream
    until the next stream creation for the same filename, the file's entry
    is read off the events: [uploaded_bytes] is the sum of the deltas of
    the writes for that filename and [complete] tells whether one of the
    events closed it.  Writes, closes and stream creations for other
    filenames, with or without an entry, do not enter into it. *)
Theorem entry_after_events (self : CustomRequest) (filename : string)
  (evs : list event) :
  open_upload self -> is_Some (upload self) ->
  Forall (fun ev => ev <> EvStream filename) evs ->
  entry (exec (fst (_get_file_stream self filename tt)) evs) filename =
    Some (ProgressEntry (sum_list (written filename <$> evs))
            (existsb (closed_by filename) evs)).
Proof.
  intros [Hc Hu] Ha Hns.
  destruct (get_file_stream_entry self filename Hu Ha) as (He & Hc' & Hu').
  rewrite (exec_entry_open filename evs _ (ProgressEntry 0 false)).
  - reflexivity.
  - split; congruence.
  - exact He.
  - exact Hns.
Qed.

Lemma entry_after_events_witness :
  entry (exec (fst (_get_file_stream
                      (Request false true (Some (UploadAttrs ∅ 350 None)))
                      "a.txt" tt))
           [EvWrite "a.txt" 100; EvStream "b.txt"; EvWrite "b.txt" 50;
            EvWrite "a.txt" 200; EvClose "c.txt"; EvClose "a.txt"]) "a.txt"
  = Some (ProgressEntry 300 true).
Proof.
  apply (entry_after_events
           (Request false true (Some (UploadAttrs ∅ 350 None))) "a.txt"
           [EvWrite "a.txt" 100; EvStream "b.txt"; EvWrite "b.txt" 50;
            EvWrite "a.txt" 200; EvClose "c.txt"; EvClose "a.txt"]).
  - split; reflexivity.
  - eexists. reflexivity.
  - repeat constructor; discriminate.
Defined.

Lemma file_close_func_entry (self : CustomRequest)
  (a : upload_attrs) (filename : string) (e : progress_entry) :
  upload self = Some a -> progress a !! filename = Some e ->
  snd (file_close_func self filename) = Ok tt
  /\ entry (fst (file_close_func self filename)) filename =
       Some (ProgressEntry (uploaded_bytes e) true).
Proof.
  intros Ha He. destruct self as [c u o]. simpl in Ha. subst o. crunch.
Qed.

Lemma exec_writes_closed (filename : string) (ds : list Z)
  (self : CustomRequest) :
  closed self = true -> exec self (EvWrite filename <$> ds) = self.
Proof.
  intros Hc. induction ds as [| d ds IH]; [reflexivity |].
  rewrite fmap_cons, exec_cons. cbn [step]. unfold file_write_func.
  rewrite Hc. exact IH.
Qed.

(** X9.  The [closed] guard covers writes only.  On an upload request
    whose [close] has run, a later file part still gets its entry from
    [_get_file_stream], none of its writes is counted, and its close still
    sets [complete]: the part ends as 0 bytes, complete. *)
Theorem part_after_close (self : CustomRequest) (filename : string)
  (ds : list Z) :
  closed self = true -> upload_request self = true -> is_Some (upload self) ->
  entry (exec self (EvStream filename :: (EvWrite filename <$> ds)
                    ++ [EvClose filename])) filename
  = Some (ProgressEntry 0 true).
Proof.
  intros Hc Hu Ha.
  destruct (get_file_stream_entry self filename Hu Ha) as (He & Hc' & Hu').
  rewrite exec_cons, exec_app.
  assert (Hfst : fst (step self (EvStream filename)) =
                 fst (_get_file_stream self filename tt)).
  { unfold step. now destruct (_get_file_stream self filename tt). }
  rewrite Hfst, exec_writes_closed by congruence.
  cbn [exec fold_left step].
  set (s1 := fst (_get_file_stream self filename tt)) in *.
  destruct (upload s1) as [a1 |] eqn:Ha1;
    [| unfold entry in He; now rewrite Ha1 in He].
  destruct (file_close_func_entry s1 a1 filename
              (ProgressEntry 0 false) Ha1) as [_ Hdone];
    [unfold entry in He; now rewrite Ha1 in He | exact Hdone].
Qed.

Lemma part_after_close_witness :
  entry (exec (Request true true (Some (UploadAttrs ∅ 350 None)))
           (EvStream "late.txt" :: (EvWrite "late.txt" <$> [100; 100])
            ++ [EvClose "late.txt"])) "late.txt"
  = Some (ProgressEntry 0 true).
Proof.
  apply (part_after_close (Request true true (Some (UploadAttrs ∅ 350 None)))
           "late.txt" [100; 100]).
  - reflexivity.
  - reflexivity.
  - eexists. reflexivity.
Defined.

(** X10.  The wrapper that [_get_file_stream] returns on an open upload
    request holds the temporary file, is bound to the filename, and
    reports to this request.  A write the file takes with [n] bytes leaves
    the new entry at [n] bytes; a write the file refuses leaves the request
    untouched; a close the file accepts sets [complete]; a close the file
    refuses leaves the entry at 0 bytes, not complete. *)
Theorem stream_reports_to_request {F : Type} `{FileLike F}
  (self : CustomRequest) (filename : string) (tmp : F) (b : list byte) :
  open_upload self -> is_Some (upload self) ->
  exists (stream : CustomTemporaryFile F CustomRequest) (self1 : CustomRequest),
    _get_file_stream self filename tmp = (self1, Ok stream)
    /\ f stream = tmp
    /\ onionshare_filename stream = filename
    /\ (forall (f' : F) (n : Z),
          file_write tmp b = (f', Ok n) ->
          entry (snd (fst (CustomTemporaryFile_write stream b self1))) filename
          = Some (ProgressEntry n false))
    /\ (forall (f' : F) (e : exn),
          file_write tmp b = (f', Raise e) ->
          CustomTemporaryFile_write stream b self1 =
            (set_f stream f', self1, Raise e))
    /\ (forall f' : F,
          file_close tmp = (f', Ok tt) ->
          CustomTemporaryFile_close stream self1 =
            (set_f stream f', fst (file_close_func self1 filename), Ok tt)
          /\ entry (fst (file_close_func self1 filename)) filename =
               Some (ProgressEntry 0 true))
    /\ (forall (f' : F) (e : exn),
          file_close tmp = (f', Raise e) ->
          entry (snd (fst (CustomTemporaryFile_close stream self1))) filename
          = Some (ProgressEntry 0 false)).
Proof.
  intros [Hc Hu] [a Ha].
  assert (Hsome : is_Some (upload self)) by (rewrite Ha; eauto).
  destruct (get_file_stream_entry self filename Hu Hsome) as (He & Hc' & Hu').
  assert (Hfst : fst (_get_file_stream self filename tmp) =
                 fst (_get_file_stream self filename tt)).
  { unfold _get_file_stream. now rewrite Hu, Ha. }
  exists (TemporaryFileWrapper filename file_write_func file_close_func tmp),
    (fst (_get_file_stream self filename tt)).
  set (s1 := fst (_get_file_stream self filename tt)) in *.
  assert (Hopen1 : open_upload s1) by (split; congruence).
  split; [| split; [reflexivity | split; [reflexivity |]]].
  { rewrite <- Hfst. unfold _get_file_stream. now rewrite Hu, Ha. }
  unfold CustomTemporaryFile_write, CustomTemporaryFile_close.
  cbn [f onionshare_filename onionshare_write_func onionshare_close_func].
  split; [| split; [| split]].
  - intros f' n Hw. rewrite Hw.
    destruct (file_write_func_entry s1 filename n (ProgressEntry 0 false)
                Hopen1 He) as [Hent _].
    destruct (file_write_func s1 filename n) as [s2 o]. exact Hent.
  - intros f' e Hw. now rewrite Hw.
  - intros f' Hcl. rewrite Hcl.
    destruct (upload s1) as [a1 |] eqn:Ha1;
      [| unfold entry in He; now rewrite Ha1 in He].
    destruct (file_close_func_entry s1 a1 filename (ProgressEntry 0 false)
                Ha1) as [Hout Hent];
      [unfold entry in He; now rewrite Ha1 in He |].
    destruct (file_close_func s1 filename) as [s2 o]. cbn [fst snd] in *.
    now subst o.
  - intros f' e Hcl. now rewrite Hcl.
Qed.

Lemma stream_reports_to_request_witness :
  exists (stream : CustomTemporaryFile mem_file CustomRequest)
    (self1 : CustomRequest),
    _get_file_stream (Request false true (Some (UploadAttrs ∅ 350 None)))
      "a.txt" (MemFile [] 8 false) = (self1, Ok stream)
    /\ entry (snd (fst (CustomTemporaryFile_write stream
                          [x61; x62; x63]%byte self1))) "a.txt"
       = Some (ProgressEntry 3 false).
Proof.
  destruct (stream_reports_to_request
              (Request false true (Some (UploadAttrs ∅ 350 None)))
              "a.txt" (MemFile [] 8 false) [x61; x62; x63]%byte)
    as (stream & self1 & Hget & _ & _ & Hw & _).
  - split; reflexivity.
  - eexists. reflexivity.
  - exists stream, self1. split; [exact Hget |].
    apply (Hw (MemFile [x61; x62; x63]%byte 5 false) 3). reflexivity.
Defined.

(** X11.  On an open upload request a write for a file that has an entry
    always updates the entry, and it returns exactly when the new total, if
    not negative, is below [2^90 - 2^36].  From that total on the write
    raises from the formatter inside its [print], after the entry has
    taken the delta. *)
Theorem file_write_func_large_total (self : CustomRequest)
  (filename : string) (length : Z) (e : progress_entry) :
  open_upload self -> entry self filename = Some e ->
  0 <= uploaded_bytes e + length ->
  entry (fst (file_write_func self filename length)) filename =
    Some (ProgressEntry (uploaded_bytes e + length) (complete e))
  /\ (snd (file_write_func self filename length) = Ok tt <->
      uploaded_bytes e + length < 2 ^ 90 - 2 ^ 36).
Proof.
  intros Hopen He Htot.
  destruct (file_write_func_entry self filename length e Hopen He)
    as (Hent & Hout & _).
  split; [exact Hent |]. rewrite Hout.
  rewrite <- (human_readable_filesize_ok_iff _ Htot).
  destruct (human_readable_filesize (uploaded_bytes e + length));
    cbn [bind is_ok]; split; intros; (reflexivity || discriminate).
Qed.

Lemma file_write_func_large_total_witness :
  entry (fst (file_write_func
                (Request false true
                   (Some (UploadAttrs
                            {["a.txt" := ProgressEntry (2 ^ 90 - 2 ^ 36 - 1)
                                           false]} 0 None)))
                "a.txt" 1)) "a.txt"
  = Some (ProgressEntry (2 ^ 90 - 2 ^ 36 - 1 + 1) false).
Proof.
  apply (file_write_func_large_total
           (Request false true
              (Some (UploadAttrs
                       {["a.txt" := ProgressEntry (2 ^ 90 - 2 ^ 36 - 1)
                                      false]} 0 None)))
           "a.txt" 1 (ProgressEntry (2 ^ 90 - 2 ^ 36 - 1) false)).
  - split; reflexivity.
  - vm_compute. reflexivity.
  - vm_compute. discriminate.
Defined.

Lemma step_content_length (self : CustomRequest) (ev : event) :
  content_length <$> upload (fst (step self ev)) =
  content_length <$> upload self.
Proof. destruct self as [c u o], ev; crunch. Qed.

(** X12.  No event of the tracker, whether it returns or raises, changes
    [closed], [upload_request] or [content_length]: only [close] sets
    [closed], and the declared length stays as [__init__] set it. *)
Theorem events_keep_request_fields (self : CustomRequest) (evs : list event) :
  closed (exec self evs) = closed self
  /\ upload_request (exec self evs) = upload_request self
  /\ content_length <$> upload (exec self evs) =
       content_length <$> upload self.
Proof.
  destruct (exec_flags evs self) as [Hc Hu].
  split; [exact Hc |]. split; [exact Hu |].
  revert self Hc Hu. induction evs as [| ev evs IH]; intros self _ _; [done |].
  rewrite exec_cons.
  destruct (exec_flags evs (fst (step self ev))) as [Hc Hu].
  rewrite (IH _ Hc Hu). apply step_content_length.
Qed.
